(** * EmpowerHer demo backend (Webathon/app.py): scoring, routing, chat rules
    and the SQLite-backed incident store, embedded in Rocq.

    Python [float] is IEEE binary64, modelled by the kernel's primitive
    floats; Python [int] is [Z]; text is [string]; the three SQLite tables
    are finite maps from rowid to row. *)

From Stdlib Require Import ZArith Floats Lia Bool Ascii String.
From stdpp Require Import gmap strings list fin_maps sorting pretty.

#[local] Set Warnings "-inexact-float,-register-all".
#[local] Open Scope Z_scope.

(** ** Python builtins on floats *)

Module Py.

(** [float(n)] for an [int] [n]: the nearest binary64 value (infinite where
    Python raises [OverflowError], which [py_float] below turns into the
    exception). *)
Definition float_of_int (n : Z) : float :=
  SF2Prim (binary_normalize prec emax n 0 false).

(** [min(a, b)]: the first argument stays unless the second is strictly
    smaller. *)
Definition min (a b : float) : float := if (b <? a)%float then b else a.

(** [max(a, b)]: the first argument stays unless the second is strictly
    larger. *)
Definition max (a b : float) : float := if (a <? b)%float then b else a.

(** Nearest integer to [a / d], ties to the even one ([0 <= a], [0 < d]). *)
Definition div_half_even (a d : Z) : Z :=
  let q := a / d in
  let r := a mod d in
  match 2 * r ?= d with
  | Lt => q
  | Gt => q + 1
  | Eq => if Z.even q then q else q + 1
  end.

(** The integer nearest to [m * 2^e * 10^k], ties to even. *)
Definition scaled_nearest (m : positive) (e : Z) (k : N) : Z :=
  let a := Z.pos m * 10 ^ Z.of_N k in
  if 0 <=? e then a * 2 ^ e else div_half_even a (2 ^ (- e)).

(** The binary64 value nearest to [n / 10^k], with sign [s]. *)
Definition decimal_to_float (s : bool) (n : Z) (k : N) : float :=
  match n with
  | Z.pos p =>
      SF2Prim (SFdiv prec emax (S754_finite s p 0)
                 (S754_finite false (Z.to_pos (10 ^ Z.of_N k)) 0))
  | _ => SF2Prim (S754_zero s)
  end.

(** [round(x, k)] for [k >= 0], as CPython computes it through a correctly
    rounded decimal conversion: the exact value of [x] is rounded to [k]
    decimals (ties to even) and the decimal read back as the nearest
    binary64 value; zeros, infinities and NaN round to themselves. *)
Definition round (x : float) (k : N) : float :=
  match Prim2SF x with
  | S754_finite s m e => decimal_to_float s (scaled_nearest m e k) k
  | _ => x
  end.

End Py.

(** ** Data model *)

Inductive label := Safe | Caution | Unsafe.
Inductive color := green | orange | red.

Record coord := { lat : float; lng : float }.

(** The clock as the code reads it: [.hour] and [.isoformat()]. *)
Record datetime := { hour : Z; isoformat : string }.

(** The dictionary [mock_predict] returns. *)
Record assessment := {
  a_score : float;
  a_label : label;
  a_color : color;
  a_alt_route : list coord;
  a_steps : list string
}.

(** ** ScoreEngine: [mock_predict] *)

Section ScoreEngine.
#[local] Open Scope float_scope.

(** [base + noise] for clock hour [h] and the sample [r] of [random()]. *)
Definition raw_sum (h : Z) (r : float) : float :=
  let base := 0.62 - (Py.float_of_int (Z.abs (22 - h)) / 44.0) in
  let noise := (r - 0.5) * 0.28 in
  base + noise.

(** The local [score] of [mock_predict], before it is rounded. *)
Definition clamped (h : Z) (r : float) : float :=
  Py.max 0.0 (Py.min 1.0 (raw_sum h r)).

Definition mock_predict (lat0 lng0 : float) (now : datetime) (r : float)
  : assessment :=
  let score := clamped (hour now) r in
  let '(lbl, col) :=
    if 0.75 <? score then (Safe, green)
    else if 0.45 <? score then (Caution, orange)
    else (Unsafe, red) in
  let alt_route :=
    [ {| lat := lat0 + 0.0015; lng := lng0 + 0.0006 |};
      {| lat := lat0 + 0.0031; lng := lng0 + 0.0011 |} ] in
  let steps :=
    [ "Head north for 200m"; "Turn right at the park";
      "Continue straight for 300m" ]%string in
  {| a_score := Py.round score 3; a_label := lbl; a_color := col;
     a_alt_route := alt_route; a_steps := steps |}.

End ScoreEngine.

(** ** RouteGenerator: the body of [api_route] after its arguments are read *)

Record route_reply := { rr_route : list coord; rr_prediction : assessment }.

Definition route_reply_for (lat0 lng0 : float) (mode : string)
    (now : datetime) (r : float) : route_reply :=
  let route :=
    if (mode =? "driving")%string then
      [ {| lat := lat0; lng := lng0 |};
        {| lat := lat0 + 0.006; lng := lng0 + 0.004 |};
        {| lat := lat0 + 0.012; lng := lng0 + 0.009 |} ]%float
    else if (mode =? "safer")%string then
      [ {| lat := lat0; lng := lng0 |};
        {| lat := lat0 + 0.002; lng := lng0 + 0.001 |};
        {| lat := lat0 + 0.004; lng := lng0 + 0.002 |} ]%float
    else
      [ {| lat := lat0; lng := lng0 |};
        {| lat := lat0 + 0.0015; lng := lng0 + 0.0008 |};
        {| lat := lat0 + 0.003; lng := lng0 + 0.0015 |} ]%float in
  let prediction := mock_predict (lat0 + 0.0015) (lng0 + 0.0008) now r in
  {| rr_route := route; rr_prediction := prediction |}.

(** ** Text: [str.strip], [str.lower] and [in], over code points below 256 *)

Module Text.

(** [str.isspace] on one character. *)
Definition is_space (c : ascii) : bool :=
  let n := N_of_ascii c in
  ((9 <=? n) && (n <=? 13) || (28 <=? n) && (n <=? 32)
   || (n =? 133) || (n =? 160))%N.

(** [str.lower] on one character: A-Z, and the capital letters of
    192-222 other than the multiplication sign 215. *)
Definition lower_char (c : ascii) : ascii :=
  let n := N_of_ascii c in
  if ((65 <=? n) && (n <=? 90)
      || (192 <=? n) && (n <=? 222) && negb (n =? 215))%N
  then ascii_of_N (n + 32) else c.

Fixpoint lower (s : string) : string :=
  match s with
  | EmptyString => EmptyString
  | String c s' => String (lower_char c) (lower s')
  end.

Fixpoint lstrip (s : string) : string :=
  match s with
  | EmptyString => EmptyString
  | String c s' => if is_space c then lstrip s' else s
  end.

Fixpoint rstrip (s : string) : string :=
  match s with
  | EmptyString => EmptyString
  | String c s' =>
      match rstrip s' with
      | EmptyString => if is_space c then EmptyString else String c EmptyString
      | t => String c t
      end
  end.

Definition strip (s : string) : string := rstrip (lstrip s).

Fixpoint startswith (p s : string) : bool :=
  match p, s with
  | EmptyString, _ => true
  | String _ _, EmptyString => false
  | String a p', String b s' => Ascii.eqb a b && startswith p' s'
  end.

(** [needle in hay]. *)
Fixpoint contains (needle hay : string) : bool :=
  startswith needle hay
  || match hay with
     | EmptyString => false
     | String _ hay' => contains needle hay'
     end.

End Text.

(** ** JSON values and the exceptions a handler can end in *)

Inductive json :=
  | JNull
  | JBool (b : bool)
  | JInt (n : Z)
  | JFloat (x : float)
  | JStr (s : string)
  | JList (l : list json)
  | JDict (d : gmap string json).

Inductive exn :=
  | TypeError | ValueError | AttributeError | OverflowError
  | BindingError      (* sqlite3: a parameter of an unsupported type *)
  | OperationalError. (* sqlite3: SQLITE_FULL, no rowid left *)

Definition result (A : Type) : Type := exn + A.

Definition ret {A} (a : A) : result A := inr a.

Definition bind {A B} (c : result A) (k : A -> result B) : result B :=
  match c with
  | inl e => inl e
  | inr a => k a
  end.

Notation "'do' x <- c ; k" := (bind c (fun x => k))
  (at level 10, x name, c at level 100, k at level 200).

(** Python truth value. *)
Definition truthy (v : json) : bool :=
  match v with
  | JNull => false
  | JBool b => b
  | JInt n => negb (n =? 0)
  | JFloat x => negb (x =? 0)%float
  | JStr s => negb (s =? "")%string
  | JList l => match l with [] => false | _ => true end
  | JDict d => match map_to_list d with [] => false | _ => true end
  end.

(** [request.get_json() or {}]. *)
Definition json_or_empty (body : json) : json :=
  if truthy body then body else JDict ∅.

(** [data.get(key, dflt)]; only a dict has [get]. *)
Definition dict_get (data : json) (key : string) (dflt : json) : result json :=
  match data with
  | JDict d => ret (default dflt (d !! key))
  | _ => inl AttributeError
  end.

(** The values the sqlite3 module binds to a statement. *)
Inductive sqlval :=
  | SNull
  | SInt (n : Z)
  | SReal (x : float)
  | SText (s : string).

Definition max_rowid_value : Z := 9223372036854775807.

Definition bind_param (v : json) : result sqlval :=
  match v with
  | JNull => ret SNull
  | JBool b => ret (SInt (if b then 1 else 0))
  | JInt n =>
      if (- max_rowid_value - 1 <=? n) && (n <=? max_rowid_value)
      then ret (SInt n) else inl OverflowError
  | JFloat x => ret (SReal x)
  | JStr s => ret (SText s)
  | JList _ | JDict _ => inl BindingError
  end.

(** Binding a Python [int], as the limit of a [SELECT]: it has to fit a
    signed 64-bit integer. *)
Definition bind_int (n : Z) : result Z :=
  if (- max_rowid_value - 1 <=? n) && (n <=? max_rowid_value)
  then ret n else inl OverflowError.

(** What a [REAL] column keeps of a bound float, [None] for [NULL]: SQLite
    turns a NaN into [NULL], and stores a float that is a 64-bit integer as
    that integer, so that a negative zero is read back as zero. *)
Definition real_column (x : float) : option float :=
  if is_nan x then None
  else if (x =? 0)%float then Some 0%float
  else Some x.

(** ** IncidentStore: three tables with [INTEGER PRIMARY KEY AUTOINCREMENT]

    A table is its rows by rowid together with its [sqlite_sequence] entry,
    the largest rowid the table has ever held. *)

Record table (A : Type) := Table { rows : gmap Z A; seq : Z }.
Arguments Table {A} _ _.
Arguments rows {A} _.
Arguments seq {A} _.

(** A row as [SELECT] reads it back: [None] is [NULL]. *)
Record report_row := {
  r_lat : option float; r_lng : option float;
  r_severity : option string; r_note : option string;
  r_created_at : string
}.

Record share_row := {
  s_lat : option float; s_lng : option float; s_created_at : string
}.

Record chat_row := { c_q : string; c_a : string; c_created_at : string }.

Record store := {
  reports : table report_row;
  shares : table share_row;
  chats : table chat_row
}.

Definition empty_table {A} : table A := Table ∅ 0.

(** [init_db]: [CREATE TABLE IF NOT EXISTS] on a database file that may
    already be there. *)
Definition init_db (db : option store) : store :=
  default {| reports := empty_table; shares := empty_table;
             chats := empty_table |} db.

Definition max_rowid {A} (m : gmap Z A) : Z :=
  map_fold (fun k _ acc => Z.max k acc) 0 m.

(** [INSERT] without a rowid: one more than the largest rowid ever held;
    [SQLITE_FULL] once that is the largest 64-bit integer. *)
Definition insert_row {A} (row : A) (t : table A) : result (table A) :=
  let top := Z.max (seq t) (max_rowid (rows t)) in
  if max_rowid_value <=? top then inl OperationalError
  else ret (Table (<[top + 1 := row]> (rows t)) (top + 1)).

(** [DELETE FROM t]: the rows go, the sequence entry stays. *)
Definition delete_all {A} (t : table A) : table A := Table ∅ (seq t).

Definition by_id_desc {A} : relation (Z * A) := fun x y => y.1 <= x.1.

#[global] Instance by_id_desc_dec {A} : RelDecision (@by_id_desc A).
Proof. intros x y. unfold by_id_desc. apply Z_le_dec. Defined.

(** [SELECT ... ORDER BY id DESC LIMIT limit]; a negative limit is no
    limit. *)
Definition select_recent {A} (limit : Z) (t : table A) : list (Z * A) :=
  let ordered := merge_sort by_id_desc (map_to_list (rows t)) in
  if limit <? 0 then ordered else take (Z.to_nat limit) ordered.

(** ** Tables by name, and the operations on the store *)

Inductive table_name := Reports | Shares | Chats.

#[global] Instance table_name_eq_dec : EqDecision table_name.
Proof. solve_decision. Defined.

Inductive store_op :=
  | AddReport (lat0 lng0 : float) (severity note : json) (now : datetime)
  | AddShare (lat0 lng0 : float) (now : datetime)
  | AddChat (q a : string) (now : datetime)
  | ClearReports.

(** The table an operation writes to. *)
Definition target (op : store_op) : table_name :=
  match op with
  | AddReport _ _ _ _ _ | ClearReports => Reports
  | AddShare _ _ _ => Shares
  | AddChat _ _ _ => Chats
  end.

Definition touches (T : table_name) (op : store_op) : bool :=
  bool_decide (target op = T).

Definition seq_of (T : table_name) (st : store) : Z :=
  match T with
  | Reports => seq (reports st)
  | Shares => seq (shares st)
  | Chats => seq (chats st)
  end.

(** The ids of the rows of table [T]. *)
Definition keys_of (T : table_name) (st : store) : gset Z :=
  match T with
  | Reports => dom (rows (reports st))
  | Shares => dom (rows (shares st))
  | Chats => dom (rows (chats st))
  end.

(** The ids of the rows table [T] holds in [st'] and did not hold in [st]. *)
Definition new_ids (T : table_name) (st st' : store) : list Z :=
  elements (keys_of T st' ∖ keys_of T st).

Section Runtime.

(** SQLite's rendering of a [REAL] that is not a NaN as text, as in
    [CAST(x AS TEXT)]. *)
Variable real_text : float -> string.

(** What a [TEXT] column keeps of a bound value, [None] for [NULL]: a
    number is stored as its text. *)
Definition text_column (v : sqlval) : option string :=
  match v with
  | SNull => None
  | SInt n => Some (pretty n)
  | SReal x => if is_nan x then None else Some (real_text x)
  | SText s => Some s
  end.

Definition save_report (lat0 lng0 : float) (severity note : json)
    (now : datetime) (st : store) : result store :=
  do sev <- bind_param severity;
  do nt <- bind_param note;
  do t <- insert_row {| r_lat := real_column lat0; r_lng := real_column lng0;
                        r_severity := text_column sev;
                        r_note := text_column nt;
                        r_created_at := isoformat now |}
            (reports st);
  ret {| reports := t; shares := shares st; chats := chats st |}.

(** Each returned pair is the dict of one row: its [id] and its columns. *)
Definition get_reports (limit : Z) (st : store)
  : result (list (Z * report_row)) :=
  do lim <- bind_int limit;
  ret (select_recent lim (reports st)).

Definition save_share (lat0 lng0 : float) (now : datetime) (st : store)
  : result store :=
  do t <- insert_row {| s_lat := real_column lat0; s_lng := real_column lng0;
                        s_created_at := isoformat now |} (shares st);
  ret {| reports := reports st; shares := t; chats := chats st |}.

Definition save_chat (q a : string) (now : datetime) (st : store)
  : result store :=
  do t <- insert_row {| c_q := q; c_a := a; c_created_at := isoformat now |}
            (chats st);
  ret {| reports := reports st; shares := shares st; chats := t |}.

Definition get_chats (limit : Z) (st : store)
  : result (list (Z * chat_row)) :=
  do lim <- bind_int limit;
  ret (select_recent lim (chats st)).

(** ** The HTTP handlers *)

Inductive reply :=
  | NoContent                    (* ('', 204) *)
  | ChatAnswer (a : string).     (* jsonify({'a': a}) *)

Definition fallback_lat : float := 28.4595.
Definition fallback_lng : float := 77.0266.

Definition dquote : string := String "034"%char EmptyString.

Definition answer_safety : string :=
  "Mock assistant: I see mixed risk around this area. Click the map to get an exact safety score and suggested safer route.".
Definition answer_route : string :=
  "Mock assistant: Use Safer Route mode to prioritise well-lit and populated paths.".
Definition answer_share : string :=
  "Mock assistant: I can share your live location with pre-selected contacts. Start Location Share to demo.".
Definition answer_sos : string :=
  "Mock assistant: Press SOS now. I will notify your emergency contacts and start location share (demo).".
Definition answer_fallback : string :=
  "Mock assistant: I can show safety heatmaps, suggest safer routes, and trigger SOS. Try: "
  +:+ dquote +:+ "Is this area safe?" +:+ dquote.

(** The [if]/[elif] chain of [api_chat] on the lower-cased question. *)
Definition chat_answer (q_low : string) : string :=
  if Text.contains "safe" q_low || Text.contains "danger" q_low
  then answer_safety
  else if Text.contains "route" q_low || Text.contains "navigate" q_low
  then answer_route
  else if Text.contains "share" q_low || Text.contains "contacts" q_low
  then answer_share
  else if Text.contains "help" q_low || Text.contains "panic" q_low
  then answer_sos
  else answer_fallback.

(** [x.strip()]: only text has [strip]. *)
Definition py_strip (v : json) : result string :=
  match v with
  | JStr s => ret (Text.strip s)
  | _ => inl AttributeError
  end.

Definition api_chat (body : json) (now : datetime) (st : store)
  : result (reply * store) :=
  let data := json_or_empty body in
  do v <- dict_get data "q" JNull;
  do q <- py_strip (if truthy v then v else JStr "");
  let q_low := Text.lower q in
  let a := chat_answer q_low in
  do st' <- save_chat q a now st;
  ret (ChatAnswer a, st').

Definition api_clear_reports (st : store) : reply * store :=
  (NoContent,
   {| reports := delete_all (reports st); shares := shares st;
      chats := chats st |}).

(** Python's [float(s)] on text: [None] where it raises [ValueError]. *)
Variable float_of_str : string -> option float.

(** Python's [str(v)] on a value that is not text. *)
Variable str_of : json -> string.

(** [float(v)]. *)
Definition py_float (v : json) : result float :=
  match v with
  | JFloat x => ret x
  | JInt n =>
      let x := Py.float_of_int n in
      if is_infinity x then inl OverflowError else ret x
  | JBool b => ret (if b then 1 else 0)%float
  | JStr s =>
      match float_of_str s with
      | Some x => ret x
      | None => inl ValueError
      end
  | JNull | JList _ | JDict _ => inl TypeError
  end.

(** A value inside an f-string. *)
Definition py_format (v : json) : string :=
  match v with
  | JStr s => s
  | _ => str_of v
  end.

(** [request.args.get(key, dflt)] on the query string. *)
Definition args_get (args : gmap string string) (key : string) (dflt : json)
  : json :=
  default dflt (JStr <$> args !! key).

Definition api_predict (args : gmap string string) (now : datetime)
    (r : float) : result assessment :=
  do lat0 <- py_float (args_get args "lat" (JFloat fallback_lat));
  do lng0 <- py_float (args_get args "lng" (JFloat fallback_lng));
  ret (mock_predict lat0 lng0 now r).

Definition api_route (args : gmap string string) (now : datetime)
    (r : float) : result route_reply :=
  do lat0 <- py_float (args_get args "lat" (JFloat fallback_lat));
  do lng0 <- py_float (args_get args "lng" (JFloat fallback_lng));
  let mode := default "walking" (args !! "mode") in
  ret (route_reply_for lat0 lng0 mode now r).

Definition api_report (body : json) (now : datetime) (st : store)
  : result (reply * store) :=
  let data := json_or_empty body in
  do v_lat <- dict_get data "lat" (JFloat fallback_lat);
  do lat0 <- py_float v_lat;
  do v_lng <- dict_get data "lng" (JFloat fallback_lng);
  do lng0 <- py_float v_lng;
  do severity <- dict_get data "severity" (JStr "Medium");
  do note <- dict_get data "note" (JStr "");
  do st' <- save_report lat0 lng0 severity note now st;
  ret (NoContent, st').

Definition api_sos (body : json) (now : datetime) (st : store)
  : result (reply * store) :=
  let data := json_or_empty body in
  do v_lat <- dict_get data "lat" (JFloat fallback_lat);
  do v_lng <- dict_get data "lng" (JFloat fallback_lng);
  do lat0 <- py_float v_lat;
  do lng0 <- py_float v_lng;
  do ty <- dict_get data "type" (JStr "unknown");
  do st' <- save_report lat0 lng0 (JStr "High")
              (JStr ("SOS triggered: " +:+ py_format ty)) now st;
  ret (NoContent, st').

Definition api_share (body : json) (now : datetime) (st : store)
  : result (reply * store) :=
  let data := json_or_empty body in
  do v_lat <- dict_get data "lat" (JFloat fallback_lat);
  do lat0 <- py_float v_lat;
  do v_lng <- dict_get data "lng" (JFloat fallback_lng);
  do lng0 <- py_float v_lng;
  do st' <- save_share lat0 lng0 now st;
  ret (NoContent, st').

(** ** Sequences of store operations *)

(** One operation, as the handler or helper behind it runs it. *)
Definition step (op : store_op) (st : store) : result store :=
  match op with
  | AddReport a b severity note now => save_report a b severity note now st
  | AddShare a b now => save_share a b now st
  | AddChat q a now => save_chat q a now st
  | ClearReports => ret (api_clear_reports st).2
  end.

(** An operation that raises leaves the store as it was. *)
Definition exec (op : store_op) (st : store) : store :=
  match step op st with
  | inr st' => st'
  | inl _ => st
  end.

Definition run (ops : list store_op) (st : store) : store :=
  foldl (fun acc op => exec op acc) st ops.

(** The ids under which a sequence of operations stores new rows in table
    [T], oldest first. *)
Fixpoint ids_given (T : table_name) (ops : list store_op) (st : store)
  : list Z :=
  match ops with
  | [] => []
  | op :: ops' => new_ids T st (exec op st) ++ ids_given T ops' (exec op st)
  end.

End Runtime.

(** * Vocabulary of the properties

    Definitions the statements below are written in: exact values of
    floats, the spec's tables, and views of the store. *)

(** ** Binary64 values

    A finite binary64 value [m * 2^e] is measured in units of [2^-1074],
    the spacing of the subnormals, which makes it an integer. *)

Module F64.

Definition units (m : positive) (e : Z) : Z := Z.pos m * 2 ^ (e + 1074).

(** [2^1074] units make 1.0. *)
Definition one_units : Z := 2 ^ 1074.

(** The value, in units, of a float that is [+0] or positive and finite. *)
Definition to_units (x : float) : Z :=
  match Prim2SF x with
  | S754_finite false m e => units m e
  | _ => 0
  end.

(** [+0] or a positive finite float. *)
Definition nonneg (x : float) : Prop :=
  Prim2SF x = S754_zero false \/ exists m e, Prim2SF x = S754_finite false m e.

Definition nonnegb (x : float) : bool :=
  match Prim2SF x with
  | S754_zero false | S754_finite false _ _ => true
  | _ => false
  end.

End F64.

(** ** The threshold table of the data model, as the spec words it *)

Definition threshold_table (s : float) : option (label * color) :=
  if (0.75 <? s)%float then Some (Safe, green)
  else if ((0.45 <? s) && (s <=? 0.75))%float then Some (Caution, orange)
  else if (s <=? 0.45)%float then Some (Unsafe, red)
  else None.

(** [clamp(x, lo, hi)]: [x] limited from above by [hi], then from below by
    [lo]. *)
Definition clamp (x lo hi : float) : float := Py.max lo (Py.min hi x).

(** ** Three-decimal scores *)

Module Decimal3.

(** The float Python reads [n / 1000] as. *)
Definition of_thousandths (n : Z) : float := Py.decimal_to_float false n 3.

(** How [of_thousandths n] compares with the thresholds and the bounds. *)
Definition ok (n : Z) : bool :=
  let d := of_thousandths n in
  (Bool.eqb (0.75 <? d)%float (750 <? n)
   && Bool.eqb (0.45 <? d)%float (450 <? n)
   && Bool.eqb (d <=? 0.75)%float (n <=? 750)
   && Bool.eqb (d <=? 0.45)%float (n <=? 450)
   && (0 <=? d)%float && (d <=? 1)%float)%bool.

End Decimal3.

(** The label and colour [mock_predict] picks, as a function of the
    unrounded score. *)
Definition label_of (score : float) : label * color :=
  if (0.75 <? score)%float then (Safe, green)
  else if (0.45 <? score)%float then (Caution, orange)
  else (Unsafe, red).

(** Ten at night, first of January. *)
Definition sample_clock : datetime :=
  {| hour := 22; isoformat := "2025-01-01T22:00:00.000001" |}.

(** ** Views of the store *)

(** Strictly newest first. *)
Definition id_desc {A} : relation (Z * A) := fun x y => y.1 < x.1.

(** All rows of a table, newest first. *)
Definition all_recent {A} (t : table A) : list (Z * A) :=
  merge_sort by_id_desc (map_to_list (rows t)).

(** No row above the sequence entry: what AUTOINCREMENT maintains. *)
Definition wf (T : table_name) (st : store) : Prop :=
  forall k, k ∈ keys_of T st -> k <= seq_of T st.

(** Two stores with the same table [T]. *)
Definition same_table (T : table_name) (st1 st2 : store) : Prop :=
  match T with
  | Reports => reports st1 = reports st2
  | Shares => shares st1 = shares st2
  | Chats => chats st1 = chats st2
  end.

(** Two reports, a share, a clear of the reports, a report whose severity
    cannot be bound, and one more report. *)
Definition sample_ops : list store_op :=
  [ AddReport 28.4595 77.0266 (JStr "High") (JStr "dark street") sample_clock;
    AddReport 28.46 77.03 (JStr "Medium") (JStr "") sample_clock;
    AddShare 28.4595 77.0266 sample_clock;
    ClearReports;
    AddReport 28.47 77.04 (JList []) (JStr "") sample_clock;
    AddReport 28.47 77.04 (JStr "Low") (JStr "") sample_clock ].

(** The store after the first three of them, on a fresh database; no
    number is stored as text on the way. *)
Definition sample_store : store :=
  run (fun _ => "") (take 3 sample_ops) (init_db None).

(** ** Predicates on text *)

Module TextSpec.
Import Text.

Fixpoint all_chars (P : ascii -> bool) (s : string) : bool :=
  match s with
  | EmptyString => true
  | String c s' => P c && all_chars P s'
  end.

(** Text without any whitespace character. *)
Definition no_space (s : string) : bool :=
  all_chars (fun c => negb (is_space c)) s.

(** Text of whitespace only (the empty text included). *)
Definition blank (s : string) : bool := all_chars is_space s.

End TextSpec.

(** ** The chat rules, as the spec words them *)

(** The rule table as the spec words it: keywords and response, in order. *)
Definition chat_rules : list (list string * string) :=
  [ (["safe"; "danger"], answer_safety);
    (["route"; "navigate"], answer_route);
    (["share"; "contacts"], answer_share);
    (["help"; "panic"], answer_sos) ]%string.

(** Some keyword occurs in the text, letter case ignored. *)
Definition rule_matches (keywords : list string) (text : string) : bool :=
  existsb (fun kw => Text.contains kw (Text.lower text)) keywords.

Fixpoint first_match (rules : list (list string * string)) (text : string)
  : string :=
  match rules with
  | [] => answer_fallback
  | (keywords, answer) :: rest =>
      if rule_matches keywords text then answer else first_match rest text
  end.

Definition classify (text : string) : string := first_match chat_rules text.

(** A request whose question is missing, empty, only whitespace, or a
    false value other than text. *)
Definition blank_question (body : json) : bool :=
  match json_or_empty body with
  | JDict d =>
      match d !! "q" with
      | None => true
      | Some (JStr s) => TextSpec.blank s
      | Some v => negb (truthy v)
      end
  | _ => false
  end.

(** ** Coordinates of a write request *)

(** The fields of a request body: [request.get_json() or {}] must be a
    dict for [data.get] to exist. *)
Definition request_fields (body : json) : result (gmap string json) :=
  match json_or_empty body with
  | JDict d => ret d
  | _ => inl AttributeError
  end.

(** A coordinate field: the fallback when the key is missing, [float(v)]
    of the value when it is there. *)
Definition coordinate (float_of_str : string -> option float) (dflt : float)
    (field : option json) : result float :=
  match field with
  | None => ret dflt
  | Some v => py_float float_of_str v
  end.

(** * Properties *)

(** ** Binary64 facts *)

Module F64Facts.
Import F64.

Lemma digits2_pos_size p : digits2_pos p = Pos.size p.
Proof. induction p as [p IH|p IH|]; simpl; congruence. Qed.

Lemma digits2_pos_bounds p :
  2 ^ (Z.pos (digits2_pos p) - 1) <= Z.pos p < 2 ^ Z.pos (digits2_pos p).
Proof.
  rewrite digits2_pos_size.
  pose proof (Pos.size_gt p) as Hgt. pose proof (Pos.size_le p) as Hle.
  apply Pos2Z.pos_lt_pos in Hgt. apply Pos2Z.pos_le_pos in Hle.
  rewrite Pos2Z.inj_pow in Hgt, Hle.
  assert (Hs : 2 ^ Z.pos (Pos.size p) = 2 * 2 ^ (Z.pos (Pos.size p) - 1)).
  { rewrite <- Z.pow_succ_r by lia. f_equal. lia. }
  change (Z.pos p~0) with (2 * Z.pos p) in Hle. lia.
Qed.

Lemma valid_finite s m e :
  valid_binary (S754_finite s m e) = true ->
  -1074 <= e <= 971 /\ Z.pos m < 2 ^ 53 /\ (-1074 < e -> 2 ^ 52 <= Z.pos m).
Proof.
  unfold SpecFloat.valid_binary, bounded, canonical_mantissa, fexp, SpecFloat.emin.
  change prec with 53. change emax with 1024.
  intros H. apply andb_prop in H as [H1 H2].
  apply Z.eqb_eq in H1. apply Z.leb_le in H2.
  pose proof (digits2_pos_bounds m) as [Hlo Hhi].
  set (d := Z.pos (digits2_pos m)) in *.
  assert (Hd : d <= 53) by lia.
  split; [lia|]. split.
  - eapply Z.lt_le_trans; [exact Hhi|]. apply Z.pow_le_mono_r; lia.
  - intros He. assert (d = 53) as Hd' by lia. rewrite Hd' in Hlo. exact Hlo.
Qed.

Lemma units_pos m e : -1074 <= e -> 0 < units m e.
Proof. intros He. unfold units. apply Z.mul_pos_pos; [lia|]. apply Z.pow_pos_nonneg; lia. Qed.

(** A smaller exponent means a smaller value, for canonical mantissas. *)
Lemma units_lt_exponent m1 e1 m2 e2 :
  valid_binary (S754_finite false m1 e1) = true ->
  valid_binary (S754_finite false m2 e2) = true ->
  e1 < e2 -> units m1 e1 < units m2 e2.
Proof.
  intros V1 V2 He.
  apply valid_finite in V1 as (He1 & Hm1 & _).
  apply valid_finite in V2 as (He2 & _ & Hm2).
  specialize (Hm2 ltac:(lia)). unfold units.
  replace (e2 + 1074) with ((e2 - e1) + (e1 + 1074)) by lia.
  rewrite (Z.pow_add_r 2 (e2 - e1) (e1 + 1074)) by lia.
  assert (HK : 2 ^ 1 <= 2 ^ (e2 - e1)) by (apply Z.pow_le_mono_r; lia).
  assert (HP : 0 < 2 ^ (e1 + 1074)) by (apply Z.pow_pos_nonneg; lia).
  change (2 ^ 1) with 2 in HK. change (2 ^ 53) with (2 * 2 ^ 52) in Hm1.
  set (K := 2 ^ (e2 - e1)) in *. set (P := 2 ^ (e1 + 1074)) in *.
  set (B := 2 ^ 52) in *. assert (0 < B) by (subst B; lia).
  rewrite Z.mul_assoc. apply Z.mul_lt_mono_pos_r; [exact HP|]. nia.
Qed.

(** The order of positive finite floats is the order of their units. *)
Lemma SFcompare_finite_pos m1 e1 m2 e2 :
  valid_binary (S754_finite false m1 e1) = true ->
  valid_binary (S754_finite false m2 e2) = true ->
  SFcompare (S754_finite false m1 e1) (S754_finite false m2 e2)
  = Some (units m1 e1 ?= units m2 e2).
Proof.
  intros V1 V2. simpl. f_equal.
  destruct (Z.compare_spec e1 e2) as [->|Hlt|Hgt].
  - pose proof (valid_finite _ _ _ V1) as (He & _).
    unfold units. rewrite <- Zmult_compare_compat_r; [reflexivity|].
    apply Z.lt_gt, Z.pow_pos_nonneg; lia.
  - symmetry. apply Z.compare_lt_iff. now apply units_lt_exponent.
  - symmetry. apply Z.compare_gt_iff. now apply units_lt_exponent.
Qed.

Lemma nonnegb_nonneg x : nonnegb x = true -> nonneg x.
Proof.
  unfold nonnegb, nonneg. destruct (Prim2SF x) as [[]|[]| |[] m e]; try discriminate.
  - now left.
  - right. now exists m, e.
Qed.

Lemma compare_nonneg x y :
  nonneg x -> nonneg y ->
  SFcompare (Prim2SF x) (Prim2SF y) = Some (to_units x ?= to_units y).
Proof.
  intros Hx Hy. unfold to_units.
  pose proof (Prim2SF_valid x) as Vx. pose proof (Prim2SF_valid y) as Vy.
  destruct Hx as [Hx|(m1 & e1 & Hx)], Hy as [Hy|(m2 & e2 & Hy)];
    rewrite Hx, Hy in *.
  - reflexivity.
  - pose proof (valid_finite _ _ _ Vy) as (He & _).
    pose proof (units_pos m2 e2 ltac:(lia)). unfold SFcompare. f_equal.
    symmetry. apply Z.compare_lt_iff. lia.
  - pose proof (valid_finite _ _ _ Vx) as (He & _).
    pose proof (units_pos m1 e1 ltac:(lia)). unfold SFcompare. f_equal.
    symmetry. apply Z.compare_gt_iff. lia.
  - now apply SFcompare_finite_pos.
Qed.

Lemma ltb_nonneg x y :
  nonneg x -> nonneg y -> (x <? y)%float = (to_units x <? to_units y).
Proof.
  intros Hx Hy. rewrite FloatAxioms.ltb_spec. unfold SFltb, Z.ltb.
  rewrite (compare_nonneg x y Hx Hy). now destruct (to_units x ?= to_units y).
Qed.

Lemma leb_nonneg x y :
  nonneg x -> nonneg y -> (x <=? y)%float = (to_units x <=? to_units y).
Proof.
  intros Hx Hy. rewrite FloatAxioms.leb_spec. unfold SFleb, Z.leb.
  rewrite (compare_nonneg x y Hx Hy). now destruct (to_units x ?= to_units y).
Qed.

Lemma eqb_nonneg x y :
  nonneg x -> nonneg y -> (x =? y)%float = (to_units x =? to_units y).
Proof.
  intros Hx Hy. rewrite FloatAxioms.eqb_spec. unfold SFeqb.
  rewrite (compare_nonneg x y Hx Hy).
  destruct (Z.compare_spec (to_units x) (to_units y)),
    (Z.eqb_spec (to_units x) (to_units y)); try reflexivity; lia.
Qed.

Lemma one_units_pos : 0 < one_units.
Proof. unfold one_units. apply Z.pow_pos_nonneg; lia. Qed.

Lemma to_units_one : to_units 1 = one_units.
Proof. vm_compute. reflexivity. Qed.

(** The clamp of [mock_predict] yields [+0], or a positive float up to 1. *)
Lemma clamp_nonneg x :
  nonneg (Py.max 0 (Py.min 1 x)) /\
  to_units (Py.max 0 (Py.min 1 x)) <= one_units.
Proof.
  pose proof one_units_pos as HT.
  unfold Py.max, Py.min. destruct (x <? 1)%float eqn:H1.
  - destruct (0 <? x)%float eqn:H0.
    + rewrite FloatAxioms.ltb_spec in H0, H1.
      pose proof (Prim2SF_valid x) as Vx.
      change (Prim2SF 0) with (S754_zero false) in H0.
      change (Prim2SF 1) with (S754_finite false 4503599627370496 (-52)) in H1.
      unfold to_units, nonneg.
      destruct (Prim2SF x) as [s|s| |s m e] eqn:Hx; try discriminate.
      * destruct s; discriminate.
      * destruct s; [discriminate|]. split; [right; now exists m, e|].
        unfold SFltb in H1. rewrite SFcompare_finite_pos in H1; [|exact Vx|reflexivity].
        change (units 4503599627370496 (-52)) with (to_units 1) in H1.
        rewrite to_units_one in H1.
        destruct (Z.compare_spec (units m e) one_units); try discriminate. lia.
    + split; [now left|]. change (to_units 0) with 0. lia.
  - change (0 <? 1)%float with true. cbv iota. split.
    + right. now exists 4503599627370496%positive, (-52).
    + rewrite to_units_one. lia.
Qed.

Lemma div_half_even_spec a d :
  0 <= a -> 0 < d ->
  2 * a - d <= 2 * d * Py.div_half_even a d <= 2 * a + d.
Proof.
  intros Ha Hd. unfold Py.div_half_even.
  pose proof (Z.div_mod a d ltac:(lia)) as E.
  pose proof (Z.mod_pos_bound a d Hd) as B.
  set (q := a / d) in *. set (r := a mod d) in *.
  destruct (Z.compare_spec (2 * r) d); [destruct (Z.even q)| |]; nia.
Qed.

(** Rounding a float of [0, 1] to three decimals: the result is the float
    of [n / 1000] for the integer [n] nearest to a thousand times it. *)
Lemma round3_units c :
  nonneg c -> to_units c <= one_units ->
  exists n, Py.round c 3 = Py.decimal_to_float false n 3 /\
    0 <= n <= 1000 /\
    2000 * to_units c - one_units <= 2 * one_units * n
      <= 2000 * to_units c + one_units.
Proof.
  pose proof one_units_pos as HT.
  intros [Hc|(m & e & Hc)] Hle; unfold Py.round, to_units in *; rewrite Hc in *.
  - exists 0. split; [|lia].
    apply Prim2SF_inj. rewrite Hc. reflexivity.
  - pose proof (Prim2SF_valid c) as V. rewrite Hc in V.
    pose proof (valid_finite _ _ _ V) as (He & Hm & Hn).
    assert (Hneg : e < 0).
    { destruct (Z.lt_ge_cases e 0) as [|Hge]; [assumption|exfalso].
      specialize (Hn ltac:(lia)).
      assert (2 ^ 1074 <= 2 ^ (e + 1074)) by (apply Z.pow_le_mono_r; lia).
      unfold units, one_units in *.
      assert (1 < Z.pos m) by (change (2 ^ 52) with 4503599627370496 in Hn; lia).
      nia. }
    exists (Py.scaled_nearest m e 3). split; [reflexivity|].
    unfold Py.scaled_nearest. destruct (Z.leb_spec 0 e) as [|_]; [lia|].
    change (10 ^ Z.of_N 3) with 1000.
    assert (HD : 0 < 2 ^ (- e)) by (apply Z.pow_pos_nonneg; lia).
    pose proof (div_half_even_spec (Z.pos m * 1000) (2 ^ (- e)) ltac:(lia) HD) as Hn'.
    assert (HP : 0 < 2 ^ (e + 1074)) by (apply Z.pow_pos_nonneg; lia).
    assert (HPD : 2 ^ (- e) * 2 ^ (e + 1074) = one_units).
    { unfold one_units. rewrite <- Z.pow_add_r by lia. f_equal. lia. }
    unfold units in *.
    set (n := Py.div_half_even (Z.pos m * 1000) (2 ^ (- e))) in *.
    set (D := 2 ^ (- e)) in *. set (P := 2 ^ (e + 1074)) in *.
    set (T := one_units) in *. clearbody n D P T.
    assert (B : 2000 * (Z.pos m * P) - T <= 2 * T * n <= 2000 * (Z.pos m * P) + T) by nia.
    split; [nia|exact B].
Qed.

End F64Facts.

(** ** Three-decimal scores *)

Module Decimal3Facts.
Import Decimal3.

Lemma table_ok : forallb ok (seqZ 0 1001) = true.
Proof. vm_compute. reflexivity. Qed.

Lemma facts n :
  0 <= n <= 1000 ->
  let d := of_thousandths n in
  (0.75 <? d)%float = (750 <? n) /\ (0.45 <? d)%float = (450 <? n) /\
  (d <=? 0.75)%float = (n <=? 750) /\ (d <=? 0.45)%float = (n <=? 450) /\
  (0 <=? d)%float = true /\ (d <=? 1)%float = true.
Proof.
  intros Hn d. pose proof table_ok as H.
  rewrite forallb_forall in H. specialize (H n).
  assert (Hin : In n (seqZ 0 1001)).
  { apply list_elem_of_In, elem_of_seqZ. lia. }
  specialize (H Hin). unfold ok in H. fold d in H.
  repeat (apply andb_prop in H as [H ?]).
  repeat match goal with
         | E : Bool.eqb _ _ = true |- _ => apply Bool.eqb_prop in E
         end.
  repeat split; assumption.
Qed.

(** Reading [n / 1000] agrees with the binary64 division of [n] by 1000. *)
Lemma of_thousandths_division :
  forallb (fun n => Leibniz.eqb (of_thousandths n)
                      (of_uint63 (Uint63.of_Z n) / 1000)%float)
    (seqZ 0 1001) = true.
Proof. vm_compute. reflexivity. Qed.

End Decimal3Facts.

(** ** ScoreEngine properties *)

Lemma threshold_units :
  4 * F64.to_units 0.75 = 3 * F64.one_units /\
  18014398509481984 * F64.to_units 0.45 = 8106479329266893 * F64.one_units.
Proof. split; vm_compute; reflexivity. Qed.

Lemma nonneg_075 : F64.nonneg 0.75.
Proof. apply F64Facts.nonnegb_nonneg. reflexivity. Qed.

Lemma nonneg_045 : F64.nonneg 0.45.
Proof. apply F64Facts.nonnegb_nonneg. reflexivity. Qed.

Lemma mock_predict_label lat0 lng0 now r :
  (a_label (mock_predict lat0 lng0 now r), a_color (mock_predict lat0 lng0 now r))
  = label_of (clamped (hour now) r).
Proof.
  unfold mock_predict, label_of.
  destruct (0.75 <? clamped (hour now) r)%float; [reflexivity|].
  destruct (0.45 <? clamped (hour now) r)%float; reflexivity.
Qed.

Lemma mock_predict_score lat0 lng0 now r :
  a_score (mock_predict lat0 lng0 now r) = Py.round (clamped (hour now) r) 3.
Proof.
  unfold mock_predict.
  destruct (0.75 <? clamped (hour now) r)%float; [reflexivity|].
  destruct (0.45 <? clamped (hour now) r)%float; reflexivity.
Qed.

Lemma mock_predict_route lat0 lng0 now r :
  a_alt_route (mock_predict lat0 lng0 now r)
  = [ {| lat := lat0 + 0.0015; lng := lng0 + 0.0006 |};
      {| lat := lat0 + 0.0031; lng := lng0 + 0.0011 |} ]%float
  /\ a_steps (mock_predict lat0 lng0 now r)
      = [ "Head north for 200m"; "Turn right at the park";
          "Continue straight for 300m" ]%string.
Proof.
  unfold mock_predict.
  destruct (0.75 <? clamped (hour now) r)%float; [now split|].
  destruct (0.45 <? clamped (hour now) r)%float; now split.
Qed.

(** C1 (as amended): the label and colour are the threshold table's value at
    the unrounded score; the returned score is that score rounded to three
    decimals, and the table read at the returned score gives the same label
    and colour unless the returned score is exactly 0.75 (then Caution or
    Safe) or exactly 0.45 (then Unsafe or Caution). *)
Theorem label_color_by_thresholds lat0 lng0 now r :
  let a := mock_predict lat0 lng0 now r in
  let raw := clamped (hour now) r in
  a_score a = Py.round raw 3 /\
  threshold_table raw = Some (a_label a, a_color a) /\
  (threshold_table (a_score a) = Some (a_label a, a_color a)
   \/ a_score a = 0.75%float /\
      ((a_label a, a_color a) = (Caution, orange)
       \/ (a_label a, a_color a) = (Safe, green))
   \/ a_score a = 0.45%float /\
      ((a_label a, a_color a) = (Unsafe, red)
       \/ (a_label a, a_color a) = (Caution, orange))).
Proof.
  intros a raw. split; [apply mock_predict_score|].
  unfold a. rewrite mock_predict_label, mock_predict_score. fold raw.
  destruct (F64Facts.clamp_nonneg (raw_sum (hour now) r)) as [Hnn Hle].
  fold (clamped (hour now) r) in Hnn, Hle. fold raw in Hnn, Hle.
  destruct (F64Facts.round3_units raw Hnn Hle) as (n & Hr & Hn & Hlo & Hhi).
  destruct (Decimal3Facts.facts n Hn) as (T1 & T2 & T3 & T4 & _).
  fold (Decimal3.of_thousandths n) in Hr. rewrite <- Hr in T1, T2, T3, T4.
  destruct threshold_units as [U75 U45].
  pose proof F64Facts.one_units_pos as HT.
  pose proof (F64Facts.ltb_nonneg _ _ nonneg_075 Hnn) as L75.
  pose proof (F64Facts.ltb_nonneg _ _ nonneg_045 Hnn) as L45.
  pose proof (F64Facts.leb_nonneg _ _ Hnn nonneg_075) as G75.
  pose proof (F64Facts.leb_nonneg _ _ Hnn nonneg_045) as G45.
  unfold threshold_table, label_of.
  rewrite T1, T2, T3, T4, L75, L45, G75, G45.
  set (u := F64.to_units raw) in *. set (u75 := F64.to_units 0.75) in *.
  set (u45 := F64.to_units 0.45) in *. set (T := F64.one_units) in *.
  clearbody u u75 u45 T.
  split.
  - destruct (Z.ltb_spec u75 u); [reflexivity|].
    destruct (Z.ltb_spec u45 u), (Z.leb_spec u u75), (Z.leb_spec u u45);
      simpl; try reflexivity; lia.
  - destruct (Z.eq_dec n 750) as [->|N75].
    { right; left. split; [rewrite Hr; vm_compute; reflexivity|].
      destruct (Z.ltb_spec u75 u); [now right|left].
      destruct (Z.ltb_spec u45 u); [reflexivity|exfalso; nia]. }
    destruct (Z.eq_dec n 450) as [->|N45].
    { right; right. split; [rewrite Hr; vm_compute; reflexivity|].
      destruct (Z.ltb_spec u75 u); [exfalso; nia|].
      destruct (Z.ltb_spec u45 u); [now right|now left]. }
    left.
    destruct (Z.ltb_spec 750 n), (Z.ltb_spec 450 n), (Z.leb_spec n 750),
      (Z.leb_spec n 450); try lia; simpl.
    + destruct (Z.ltb_spec u75 u); [reflexivity|exfalso; nia].
    + destruct (Z.ltb_spec u75 u); [exfalso; nia|].
      destruct (Z.ltb_spec u45 u); [reflexivity|exfalso; nia].
    + destruct (Z.ltb_spec u75 u); [exfalso; nia|].
      destruct (Z.ltb_spec u45 u); [exfalso; nia|reflexivity].
Qed.

(** C2: the returned score is the clamped sum of the diurnal base and the
    noise, rounded to three decimals, and lies between 0 and 1. *)
Theorem score_formula_and_range lat0 lng0 now r :
  let s := a_score (mock_predict lat0 lng0 now r) in
  s = Py.round
        (clamp (0.62 - Py.float_of_int (Z.abs (22 - hour now)) / 44.0
                + (r - 0.5) * 0.28) 0 1) 3
  /\ (0 <=? s)%float = true /\ (s <=? 1)%float = true.
Proof.
  intros s. unfold s. rewrite mock_predict_score.
  split; [reflexivity|].
  destruct (F64Facts.clamp_nonneg (raw_sum (hour now) r)) as [Hnn Hle].
  destruct (F64Facts.round3_units _ Hnn Hle) as (n & Hr & Hn & _).
  unfold clamped. rewrite Hr.
  destruct (Decimal3Facts.facts n Hn) as (_ & _ & _ & _ & H0 & H1). now split.
Qed.

(** C9: with the clock and the random sample fixed, the score, label and
    colour (and the step list) do not depend on the coordinate; only the
    alternate route does. *)
Theorem classification_ignores_coordinates lat1 lng1 lat2 lng2 now r :
  let a1 := mock_predict lat1 lng1 now r in
  let a2 := mock_predict lat2 lng2 now r in
  a_score a1 = a_score a2 /\ a_label a1 = a_label a2 /\
  a_color a1 = a_color a2 /\ a_steps a1 = a_steps a2 /\
  a_alt_route a1 = [ {| lat := lat1 + 0.0015; lng := lng1 + 0.0006 |};
                     {| lat := lat1 + 0.0031; lng := lng1 + 0.0011 |} ]%float /\
  a_alt_route a2 = [ {| lat := lat2 + 0.0015; lng := lng2 + 0.0006 |};
                     {| lat := lat2 + 0.0031; lng := lng2 + 0.0011 |} ]%float.
Proof.
  intros a1 a2.
  pose proof (mock_predict_label lat1 lng1 now r) as E1.
  pose proof (mock_predict_label lat2 lng2 now r) as E2.
  fold a1 in E1. fold a2 in E2. rewrite <- E2 in E1.
  injection E1 as El Ec.
  destruct (mock_predict_route lat1 lng1 now r) as [R1 S1].
  destruct (mock_predict_route lat2 lng2 now r) as [R2 S2].
  unfold a1, a2. rewrite !mock_predict_score, S1, S2.
  repeat split; assumption.
Qed.

(** C1 fails as stated: two runs return the same score 0.75, one labelled
    Safe/green and one Caution/orange, and the table puts 0.75 at Caution. *)
Lemma score_075_labelled_safe :
  let a1 := mock_predict 28.4595 77.0266 sample_clock 0.966 in
  let a2 := mock_predict 28.4595 77.0266 sample_clock 0.964 in
  a_score a1 = 0.75%float /\ a_label a1 = Safe /\ a_color a1 = green /\
  a_score a2 = 0.75%float /\ a_label a2 = Caution /\ a_color a2 = orange /\
  threshold_table (a_score a1) = Some (Caution, orange).
Proof. vm_compute. repeat split; reflexivity. Qed.

(** ** IncidentStore properties *)

Section Tables.
Context {A : Type}.

#[local] Instance by_id_desc_trans : Transitive (@by_id_desc A).
Proof. intros x y z. unfold by_id_desc. lia. Qed.

#[local] Instance by_id_desc_total : Total (@by_id_desc A).
Proof. intros x y. unfold by_id_desc. lia. Qed.

#[local] Instance id_desc_antisymm : AntiSymm eq (@id_desc A).
Proof. intros x y. unfold id_desc. lia. Qed.

Lemma max_rowid_bound (m : gmap Z A) k : is_Some (m !! k) -> k <= max_rowid m.
Proof.
  unfold max_rowid. revert k.
  apply (map_fold_weak_ind (fun r (m : gmap Z A) => forall k, is_Some (m !! k) -> k <= r)).
  - intros k [x Hx]. rewrite lookup_empty in Hx. discriminate.
  - intros i x m' r Hi IH k Hk. destruct (decide (k = i)) as [->|Hne]; [lia|].
    rewrite lookup_insert_ne in Hk by congruence. specialize (IH k Hk). lia.
Qed.

Lemma sorted_nodup_strict (l : list (Z * A)) :
  StronglySorted by_id_desc l -> NoDup l.*1 -> StronglySorted id_desc l.
Proof.
  induction 1 as [|x l Hs IH Hx]; intros Hnd; [constructor|].
  rewrite fmap_cons in Hnd. apply NoDup_cons in Hnd as [Hnotin Hnd].
  constructor; [now apply IH|].
  rewrite Forall_forall in Hx |- *. intros y Hy.
  specialize (Hx y Hy). unfold by_id_desc in Hx. unfold id_desc.
  assert (y.1 <> x.1).
  { intros E. apply Hnotin. rewrite <- E. now apply list_elem_of_fmap_2. }
  lia.
Qed.

Lemma all_recent_perm (t : table A) : all_recent t ≡ₚ map_to_list (rows t).
Proof. apply merge_sort_Permutation. Qed.

Lemma all_recent_sorted (t : table A) : StronglySorted id_desc (all_recent t).
Proof.
  apply sorted_nodup_strict.
  - apply StronglySorted_merge_sort; apply _.
  - rewrite all_recent_perm. apply NoDup_fst_map_to_list.
Qed.

Lemma elem_of_all_recent (t : table A) i row :
  (i, row) ∈ all_recent t <-> rows t !! i = Some row.
Proof. rewrite all_recent_perm. apply elem_of_map_to_list. Qed.

Lemma select_recent_take (n : nat) (t : table A) :
  select_recent (Z.of_nat n) t = take n (all_recent t).
Proof.
  unfold select_recent. fold (all_recent t).
  destruct (Z.ltb_spec (Z.of_nat n) 0); [lia|]. now rewrite Nat2Z.id.
Qed.

(** A negative limit returns every row. *)
Lemma select_recent_negative (limit : Z) (t : table A) :
  limit < 0 -> select_recent limit t = all_recent t.
Proof.
  intros H. unfold select_recent, all_recent.
  now destruct (Z.ltb_spec limit 0); [|lia].
Qed.

(** What [LIMIT n] returns of a table. *)
Lemma select_recent_spec (n : nat) (t : table A) :
  let res := select_recent (Z.of_nat n) t in
  (length res <= n)%nat /\
  StronglySorted id_desc res /\
  (forall i row, (i, row) ∈ res -> rows t !! i = Some row) /\
  (forall i row, rows t !! i = Some row -> (i, row) ∉ res ->
     length res = n /\ forall x, x ∈ res -> i < x.1).
Proof.
  intros res. unfold res. rewrite select_recent_take.
  pose proof (all_recent_sorted t) as Hs.
  rewrite <- (take_drop n (all_recent t)) in Hs.
  split; [rewrite length_take; lia|]. split; [|split].
  - eapply StronglySorted_app_1_l, Hs.
  - intros i row Hin. apply elem_of_all_recent.
    apply elem_of_take in Hin as (j & Hj & _).
    apply list_elem_of_lookup. now exists j.
  - intros i row Hrow Hnot. apply elem_of_all_recent in Hrow.
    rewrite <- (take_drop n (all_recent t)) in Hrow.
    apply elem_of_app in Hrow as [Hin|Hin]; [contradiction|].
    split.
    + rewrite length_take. apply list_elem_of_lookup in Hin as [j Hj].
      rewrite lookup_drop in Hj. apply lookup_lt_Some in Hj. lia.
    + intros x Hx.
      apply (StronglySorted_app_1_elem_of _ _ _ x (i, row) Hs Hx Hin).
Qed.

Lemma insert_row_inv (row : A) (t t' : table A) :
  insert_row row t = inr t' ->
  rows t' = <[seq t' := row]> (rows t) /\
  seq t < seq t' /\ rows t !! seq t' = None /\
  (forall k, is_Some (rows t !! k) -> k < seq t').
Proof.
  unfold insert_row.
  destruct (max_rowid_value <=? Z.max (seq t) (max_rowid (rows t)));
    [discriminate|].
  intros [= <-]. simpl.
  assert (Hk : forall k, is_Some (rows t !! k) ->
                 k < Z.max (seq t) (max_rowid (rows t)) + 1).
  { intros k Hk. apply max_rowid_bound in Hk. lia. }
  repeat split; [lia| |exact Hk].
  destruct (rows t !! (Z.max (seq t) (max_rowid (rows t)) + 1)) eqn:E;
    [|reflexivity].
  specialize (Hk _ (mk_is_Some _ _ E)). lia.
Qed.

(** After an insert the new row comes first, ahead of the earlier ones. *)
Lemma all_recent_insert (row : A) (t t' : table A) :
  insert_row row t = inr t' -> all_recent t' = (seq t', row) :: all_recent t.
Proof.
  intros H. apply insert_row_inv in H as (Hrows & _ & Hnone & Hlt).
  apply (StronglySorted_unique id_desc).
  - apply all_recent_sorted.
  - constructor; [apply all_recent_sorted|].
    rewrite Forall_forall. intros [k r] Hin. unfold id_desc. simpl.
    apply elem_of_all_recent in Hin. apply Hlt. now exists r.
  - rewrite !all_recent_perm, Hrows. now apply map_to_list_insert.
Qed.

End Tables.

Section Store.
Variable real_text : float -> string.

Lemma bind_int_fits (n : nat) :
  Z.of_nat n <= max_rowid_value -> bind_int (Z.of_nat n) = inr (Z.of_nat n).
Proof.
  intros H. unfold bind_int.
  assert (E1 : (- max_rowid_value - 1 <=? Z.of_nat n) = true).
  { apply Z.leb_le. unfold max_rowid_value. lia. }
  assert (E2 : (Z.of_nat n <=? max_rowid_value) = true) by now apply Z.leb_le.
  now rewrite E1, E2.
Qed.

(** C6: for a limit [n] that SQLite accepts, [get_reports n] returns at
    most [n] reports, in strictly descending id order; they are stored
    reports, every report left out is older than all returned ones; and a
    report just saved comes first, ahead of what was returned before, its
    coordinates as a [REAL] column keeps them. *)
Theorem recent_reports_bounded_newest_first (n : nat) (st : store) :
  Z.of_nat n <= max_rowid_value ->
  exists res,
    get_reports (Z.of_nat n) st = inr res /\
    (length res <= n)%nat /\
    StronglySorted (fun x y => y.1 < x.1) res /\
    (forall i row, (i, row) ∈ res -> rows (reports st) !! i = Some row) /\
    (forall i row, rows (reports st) !! i = Some row -> (i, row) ∉ res ->
       length res = n /\ forall x, x ∈ res -> i < x.1) /\
    (forall lat0 lng0 severity note now st',
       Z.of_nat (S n) <= max_rowid_value ->
       save_report real_text lat0 lng0 severity note now st = inr st' ->
       exists id row,
         get_reports (Z.of_nat (S n)) st' = inr ((id, row) :: res) /\
         r_lat row = (if is_nan lat0 then None
                      else if (lat0 =? 0)%float then Some 0%float
                      else Some lat0) /\
         r_lng row = (if is_nan lng0 then None
                      else if (lng0 =? 0)%float then Some 0%float
                      else Some lng0) /\
         (forall s, severity = JStr s -> r_severity row = Some s) /\
         (forall s, note = JStr s -> r_note row = Some s) /\
         r_created_at row = isoformat now).
Proof.
  intros Hn. exists (select_recent (Z.of_nat n) (reports st)).
  destruct (select_recent_spec n (reports st)) as (H1 & H2 & H3 & H4).
  split; [unfold get_reports; now rewrite (bind_int_fits n Hn)|].
  split; [exact H1|]. split; [exact H2|]. split; [exact H3|].
  split; [exact H4|].
  intros lat0 lng0 severity note now st' HSn. unfold save_report.
  destruct (bind_param severity) as [e|sev] eqn:Hsev; [discriminate|].
  destruct (bind_param note) as [e|nt] eqn:Hnt; [discriminate|]. simpl.
  destruct (insert_row _ (reports st)) as [e|t'] eqn:Hins; [discriminate|].
  simpl. intros [= <-].
  eexists _, _. split.
  - unfold get_reports. rewrite (bind_int_fits (S n) HSn). cbn [bind ret].
    rewrite !select_recent_take. cbn [reports].
    rewrite (all_recent_insert _ _ _ Hins). reflexivity.
  - cbn [r_lat r_lng r_severity r_note r_created_at].
    split; [reflexivity|]. split; [reflexivity|].
    split; [|split; [|reflexivity]].
    + intros s ->. now injection Hsev as <-.
    + intros s ->. now injection Hnt as <-.
Qed.

(** C8: clearing the reports leaves the reports table empty and the shares
    and chats tables as they were. *)
Theorem clear_reports_frame (st : store) :
  let st' := (api_clear_reports st).2 in
  rows (reports st') = ∅ /\
  (forall limit,
     get_reports limit st' = (do lim <- bind_int limit; ret [])) /\
  shares st' = shares st /\ chats st' = chats st /\
  (forall limit, get_chats limit st' = get_chats limit st).
Proof.
  intros st'. repeat split.
  intros limit. unfold get_reports.
  destruct (bind_int limit) as [e|lim]; [reflexivity|]. cbn [bind ret].
  unfold select_recent. simpl.
  assert (E : merge_sort by_id_desc (map_to_list (∅ : gmap Z report_row)) = []).
  { apply Permutation_nil_r. now rewrite merge_sort_Permutation, map_to_list_empty. }
  rewrite E. now destruct (lim <? 0); [|rewrite take_nil].
Qed.

(** *** Row ids over sequences of operations *)

Lemma save_report_inv a b severity note now st st' :
  save_report real_text a b severity note now st = inr st' ->
  (exists row, insert_row row (reports st) = inr (reports st')) /\
  shares st' = shares st /\ chats st' = chats st.
Proof.
  unfold save_report.
  destruct (bind_param severity) as [e|sev]; [discriminate|].
  destruct (bind_param note) as [e|nt]; [discriminate|]. simpl.
  destruct (insert_row _ (reports st)) as [e|t'] eqn:Hins; [discriminate|].
  simpl. intros [= <-]. simpl. eauto.
Qed.

Lemma save_share_inv a b now st st' :
  save_share a b now st = inr st' ->
  (exists row, insert_row row (shares st) = inr (shares st')) /\
  reports st' = reports st /\ chats st' = chats st.
Proof.
  unfold save_share.
  destruct (insert_row _ (shares st)) as [e|t'] eqn:Hins; [discriminate|].
  simpl. intros [= <-]. simpl. eauto.
Qed.

Lemma save_chat_inv q a now st st' :
  save_chat q a now st = inr st' ->
  (exists row, insert_row row (chats st) = inr (chats st')) /\
  reports st' = reports st /\ shares st' = shares st.
Proof.
  unfold save_chat.
  destruct (insert_row _ (chats st)) as [e|t'] eqn:Hins; [discriminate|].
  simpl. intros [= <-]. simpl. eauto.
Qed.

Lemma insert_row_keys {A} (row : A) t t' :
  insert_row row t = inr t' ->
  dom (rows t') = {[ seq t' ]} ∪ dom (rows t) /\
  seq t < seq t' /\ (forall k, k ∈ dom (rows t) -> k < seq t').
Proof.
  intros H. apply insert_row_inv in H as (Hrows & Hseq & _ & Hlt).
  rewrite Hrows, dom_insert_L. repeat split; [assumption|].
  intros k Hk. apply Hlt. now apply elem_of_dom.
Qed.

(** What one operation does to table [T]: nothing, an insert under a
    fresh id above everything the table held or gave out, or a clear that
    keeps the sequence entry. *)
Lemma exec_table (T : table_name) op st :
  let st' := exec real_text op st in
  (seq_of T st' = seq_of T st /\ keys_of T st' = keys_of T st)
  \/ (exists i, target op = T /\ op <> ClearReports /\
        step real_text op st = inr st' /\
        seq_of T st' = i /\ seq_of T st < i /\
        keys_of T st' = {[ i ]} ∪ keys_of T st /\
        forall k, k ∈ keys_of T st -> k < i)
  \/ (op = ClearReports /\ T = Reports /\
      seq_of T st' = seq_of T st /\ keys_of T st' = ∅).
Proof.
  unfold exec.
  destruct op as [a b severity note now|a b now|q a now|]; cbn [step].
  - destruct (save_report _ _ _ _ _ _ st) as [e|st'] eqn:Hs; cbn zeta.
    { now left. }
    apply save_report_inv in Hs as ((row & Hins) & Hsh & Hch).
    apply insert_row_keys in Hins as (Hdom & Hseq & Hlt).
    destruct T; simpl.
    + right; left. exists (seq (reports st')).
      repeat split; try assumption. discriminate.
    + left. now rewrite Hsh.
    + left. now rewrite Hch.
  - destruct (save_share _ _ _ st) as [e|st'] eqn:Hs; cbn zeta.
    { now left. }
    apply save_share_inv in Hs as ((row & Hins) & Hre & Hch).
    apply insert_row_keys in Hins as (Hdom & Hseq & Hlt).
    destruct T; simpl.
    + left. now rewrite Hre.
    + right; left. exists (seq (shares st')).
      repeat split; try assumption. discriminate.
    + left. now rewrite Hch.
  - destruct (save_chat _ _ _ st) as [e|st'] eqn:Hs; cbn zeta.
    { now left. }
    apply save_chat_inv in Hs as ((row & Hins) & Hre & Hsh).
    apply insert_row_keys in Hins as (Hdom & Hseq & Hlt).
    destruct T; simpl.
    + left. now rewrite Hre.
    + left. now rewrite Hsh.
    + right; left. exists (seq (chats st')).
      repeat split; try assumption. discriminate.
  - destruct T; simpl.
    + right; right. repeat split.
    + now left.
    + now left.
Qed.

Lemma new_ids_same (T : table_name) st st' :
  keys_of T st' = keys_of T st -> new_ids T st st' = [].
Proof.
  intros E. unfold new_ids. rewrite E, difference_diag_L.
  apply elements_empty.
Qed.

Lemma new_ids_cleared (T : table_name) st st' :
  keys_of T st' = ∅ -> new_ids T st st' = [].
Proof.
  intros E. unfold new_ids. rewrite E.
  replace (∅ ∖ keys_of T st) with (∅ : gset Z); [apply elements_empty|].
  apply set_eq. intros x. rewrite elem_of_difference, elem_of_empty. tauto.
Qed.

Lemma new_ids_insert (T : table_name) st st' i :
  keys_of T st' = {[ i ]} ∪ keys_of T st -> i ∉ keys_of T st ->
  new_ids T st st' = [i].
Proof.
  intros E Hi. unfold new_ids. rewrite E.
  replace (({[ i ]} ∪ keys_of T st) ∖ keys_of T st) with ({[ i ]} : gset Z);
    [apply elements_singleton|].
  apply set_eq. intros x.
  rewrite elem_of_difference, elem_of_union, elem_of_singleton.
  split; [intros ->; split; [now left|assumption]|].
  now intros [[->|Hin] Hnot].
Qed.

(** The ids one operation stores new rows under in table [T]: none, or
    the one id of the row an insert added. *)
Lemma exec_new_ids (T : table_name) op st :
  let st' := exec real_text op st in
  (new_ids T st st' = [] /\ seq_of T st' = seq_of T st /\
   keys_of T st' ⊆ keys_of T st)
  \/ (exists i, new_ids T st st' = [i] /\ seq_of T st' = i /\
        seq_of T st < i /\ keys_of T st' = {[ i ]} ∪ keys_of T st /\
        forall k, k ∈ keys_of T st -> k < i).
Proof.
  intros st'. pose proof (exec_table T op st) as Hop. cbn zeta in Hop.
  fold st' in Hop.
  destruct Hop as [(Hs & Hk)|[(i & _ & _ & _ & Hs & Hlt & Hk & Hall)|(_ & _ & Hs & Hk)]].
  - left. split; [now apply new_ids_same|]. split; [exact Hs|]. now rewrite Hk.
  - right. exists i. split; [|now repeat split].
    apply new_ids_insert; [exact Hk|]. intros Hin. specialize (Hall i Hin). lia.
  - left. split; [now apply new_ids_cleared|]. split; [exact Hs|].
    rewrite Hk. intros k Hin. now apply elem_of_empty in Hin.
Qed.

Lemma run_cons op ops st :
  run real_text (op :: ops) st = run real_text ops (exec real_text op st).
Proof. reflexivity. Qed.

(** Along any sequence of operations the ids under which a table stores
    new rows rise strictly, lie above the sequence entry at the start and
    up to the one at the end; no row is left above the sequence entry, and
    every row the table holds was there at the start or is one of the new
    ones. *)
Lemma run_increasing T ops : forall st,
  wf T st ->
  wf T (run real_text ops st) /\
  seq_of T st <= seq_of T (run real_text ops st) /\
  StronglySorted Z.lt (ids_given real_text T ops st) /\
  Forall (fun i => seq_of T st < i <= seq_of T (run real_text ops st))
    (ids_given real_text T ops st) /\
  (forall k, k ∈ keys_of T (run real_text ops st) ->
     k ∈ keys_of T st \/ k ∈ ids_given real_text T ops st).
Proof.
  induction ops as [|op ops IH]; intros st Hwf.
  - simpl. repeat split; [assumption|lia|constructor|constructor|now left].
  - rewrite run_cons. cbn [ids_given].
    pose proof (exec_new_ids T op st) as Hop. cbn zeta in Hop.
    set (st1 := exec real_text op st) in *.
    assert (Hwf1 : wf T st1).
    { destruct Hop as [(_ & Hs & Hk)|(i & _ & Hs & Hlt & Hk & _)]; intros k Hin.
      - rewrite Hs. apply Hwf. now apply Hk.
      - rewrite Hk, elem_of_union, elem_of_singleton in Hin.
        destruct Hin as [->|Hin]; [lia|]. specialize (Hwf k Hin). lia. }
    destruct (IH st1 Hwf1) as (Hwf2 & Hle & Hsorted & Hall & Hkeys).
    assert (Hall' : Forall (fun i => seq_of T st1 < i) (ids_given real_text T ops st1)).
    { eapply Forall_impl; [exact Hall|]. simpl. intros i Hi. lia. }
    rewrite Forall_forall in Hall, Hall'.
    destruct Hop as [(Hnew & Hs & Hk)|(i & Hnew & Hs & Hlt & Hk & _)];
      rewrite Hnew; cbn [app].
    + split; [assumption|]. split; [lia|]. split; [assumption|].
      split.
      * rewrite Forall_forall. intros j Hj. specialize (Hall j Hj). lia.
      * intros k Hin. destruct (Hkeys k Hin) as [H|H]; [left; now apply Hk|now right].
    + split; [assumption|]. split; [lia|]. split; [|split].
      * constructor; [assumption|]. rewrite Forall_forall.
        intros j Hj. specialize (Hall' j Hj). lia.
      * constructor; [lia|]. rewrite Forall_forall.
        intros j Hj. specialize (Hall j Hj). lia.
      * intros k Hin. destruct (Hkeys k Hin) as [H|H].
        -- rewrite Hk, elem_of_union, elem_of_singleton in H.
           destruct H as [->|H]; [right; apply elem_of_cons; now left|now left].
        -- right. apply elem_of_cons. now right.
Qed.

Lemma same_table_keys T st1 st2 :
  same_table T st1 st2 -> keys_of T st1 = keys_of T st2.
Proof. destruct T; simpl; now intros ->. Qed.

(** An operation on table [T] does the same to it in two stores that
    agree on [T]; any other operation leaves [T] as it was. *)
Lemma exec_same_table T op st1 st2 :
  same_table T st1 st2 ->
  if touches T op
  then same_table T (exec real_text op st1) (exec real_text op st2)
  else same_table T (exec real_text op st1) st2.
Proof.
  intros Hsame. unfold touches.
  destruct (decide (target op = T)) as [Ht|Ht].
  - rewrite bool_decide_eq_true_2 by assumption. unfold exec.
    destruct op as [a b severity note now|a b now|q a now|];
      simpl in Ht; subst T; simpl in Hsame |- *.
    + unfold save_report. rewrite Hsame.
      destruct (bind_param severity); simpl; [assumption|].
      destruct (bind_param note); simpl; [assumption|].
      now destruct (insert_row _ (reports st2)).
    + unfold save_share. rewrite Hsame.
      now destruct (insert_row _ (shares st2)).
    + unfold save_chat. rewrite Hsame.
      now destruct (insert_row _ (chats st2)).
    + now rewrite Hsame.
  - rewrite bool_decide_eq_false_2 by assumption. unfold exec.
    destruct op as [a b severity note now|a b now|q a now|];
      destruct T; simpl in Ht, Hsame |- *; try (now destruct Ht).
    all: try (destruct (save_report _ _ _ _ _ _ st1) as [e|st'] eqn:Hs;
              [assumption|apply save_report_inv in Hs as (_ & Hsh & Hch);
                          congruence]).
    all: try (destruct (save_share _ _ _ st1) as [e|st'] eqn:Hs;
              [assumption|apply save_share_inv in Hs as (_ & Hre & Hch);
                          congruence]).
    all: try (destruct (save_chat _ _ _ st1) as [e|st'] eqn:Hs;
              [assumption|apply save_chat_inv in Hs as (_ & Hre & Hsh);
                          congruence]).
    all: assumption.
Qed.

(** The ids given out in a table depend on the operations on that table
    alone. *)
Lemma run_independent T ops : forall st1 st2,
  same_table T st1 st2 ->
  ids_given real_text T ops st1
  = ids_given real_text T (filter (touches T) ops) st2.
Proof.
  induction ops as [|op ops IH]; intros st1 st2 Hsame; [reflexivity|].
  rewrite filter_cons. pose proof (exec_same_table T op st1 st2 Hsame) as Hex.
  destruct (touches T op); cbn [ids_given].
  - rewrite (IH _ _ Hex). unfold new_ids.
    now rewrite (same_table_keys _ _ _ Hsame), (same_table_keys _ _ _ Hex).
  - rewrite (IH _ _ Hex), new_ids_same; [reflexivity|].
    now rewrite (same_table_keys _ _ _ Hsame), (same_table_keys _ _ _ Hex).
Qed.

Lemma wf_init T : wf T (init_db None).
Proof. intros k. destruct T; simpl; rewrite dom_empty_L; intros H; now apply not_elem_of_empty in H. Qed.

Lemma same_table_refl T st : same_table T st st.
Proof. now destruct T. Qed.

(** C7: over any history of operations on a fresh database and any further
    operations, the ids under which a table stores its new rows rise
    strictly and lie above every id the table holds or held before; every
    row a table holds carries an id given out in that table; an insert that
    goes through stores exactly one new row; the ids of a table depend on
    the operations on that table alone; and after the reports are cleared,
    new reports still get ids above every earlier one. *)
Theorem rowids_increase_per_table (history ops : list store_op) (T : table_name) :
  let st := run real_text history (init_db None) in
  let earlier := fun T' => ids_given real_text T' history (init_db None) in
  let later := ids_given real_text T ops st in
  StronglySorted Z.lt later /\
  (forall k i, k ∈ earlier T \/ k ∈ keys_of T st -> i ∈ later -> k < i) /\
  (forall k, k ∈ keys_of T st -> k ∈ earlier T) /\
  (forall k, k ∈ keys_of T (run real_text ops st) ->
     k ∈ keys_of T st \/ k ∈ later) /\
  (forall op st1 st2, op <> ClearReports ->
     step real_text op st1 = inr st2 ->
     exists i, new_ids (target op) st1 st2 = [i] /\
       (i ∉ keys_of (target op) st1) /\
       keys_of (target op) st2 = {[ i ]} ∪ keys_of (target op) st1) /\
  (forall st2, same_table T st st2 ->
     later = ids_given real_text T (filter (touches T) ops) st2) /\
  (forall k i, k ∈ earlier Reports \/ k ∈ keys_of Reports st ->
     i ∈ ids_given real_text Reports ops (api_clear_reports st).2 -> k < i).
Proof.
  intros st earlier later.
  assert (Hpast : forall T', wf T' st /\
            (forall k, k ∈ keys_of T' st -> k ∈ earlier T') /\
            forall k, k ∈ earlier T' \/ k ∈ keys_of T' st -> k <= seq_of T' st).
  { intros T'.
    destruct (run_increasing T' history _ (wf_init T'))
      as (Hwf & _ & _ & Hall & Hkeys).
    fold st in Hwf, Hall, Hkeys. split; [assumption|]. split.
    - intros k Hk. destruct (Hkeys k Hk) as [H|H]; [|exact H].
      destruct T'; simpl in H; rewrite dom_empty_L in H;
        now apply not_elem_of_empty in H.
    - intros k [Hk|Hk]; [|now apply Hwf].
      rewrite Forall_forall in Hall. apply Hall in Hk. lia. }
  destruct (Hpast T) as (Hwf & Hheld & Hle).
  destruct (run_increasing T ops st Hwf) as (_ & _ & Hsorted & Hall & Hkeys).
  split; [exact Hsorted|]. split; [|split; [exact Hheld|split; [exact Hkeys|]]].
  { intros k i Hk Hi. apply Hle in Hk.
    rewrite Forall_forall in Hall. apply Hall in Hi. lia. }
  split; [|split].
  - intros op st1 st2 Hop Hstep.
    pose proof (exec_table (target op) op st1) as Hex. cbn zeta in Hex.
    assert (E : exec real_text op st1 = st2) by (unfold exec; now rewrite Hstep).
    rewrite E in Hex.
    destruct Hex as [(Hs & Hk)|[(i & _ & _ & _ & Hs & Hlt & Hk & Hless)|(Hc & _)]];
      [|exists i|contradiction].
    + exfalso. revert Hs Hk. unfold step in Hstep.
      destruct op as [a b severity note now|a b now|q a now|];
        [| | |contradiction]; simpl.
      * apply save_report_inv in Hstep as ((row & Hins) & _).
        apply insert_row_keys in Hins as (_ & Hseq & _). lia.
      * apply save_share_inv in Hstep as ((row & Hins) & _).
        apply insert_row_keys in Hins as (_ & Hseq & _). lia.
      * apply save_chat_inv in Hstep as ((row & Hins) & _).
        apply insert_row_keys in Hins as (_ & Hseq & _). lia.
    + assert (Hi : i ∉ keys_of (target op) st1).
      { intros Hin. specialize (Hless i Hin). lia. }
      split; [now apply new_ids_insert|]. split; assumption.
  - intros st2 Hsame. now apply run_independent.
  - intros k i Hk Hi. destruct (Hpast Reports) as (_ & _ & HleR). apply HleR in Hk.
    assert (Hwfc : wf Reports (api_clear_reports st).2).
    { intros j. simpl. rewrite dom_empty_L. intros H. now apply not_elem_of_empty in H. }
    destruct (run_increasing Reports ops _ Hwfc) as (_ & _ & _ & Hallc & _).
    rewrite Forall_forall in Hallc. apply Hallc in Hi. simpl in Hi, Hk. lia.
Qed.

End Store.

(** C6 at limit 1 on a store that holds two reports. *)
Lemma recent_reports_witness :
  Z.of_nat 1 <= max_rowid_value /\
  exists res,
    get_reports (Z.of_nat 1) sample_store = inr res /\
    (length res <= 1)%nat /\
    (forall i row, rows (reports sample_store) !! i = Some row ->
       (i, row) ∉ res -> forall x, x ∈ res -> i < x.1).
Proof.
  assert (H : Z.of_nat 1 <= max_rowid_value) by (unfold max_rowid_value; lia).
  split; [exact H|].
  destruct (recent_reports_bounded_newest_first (fun _ => "") 1 sample_store H)
    as (res & E & L & _ & _ & Hout & _).
  exists res. split; [exact E|]. split; [exact L|].
  intros i row Hrow Hnot. exact (proj2 (Hout i row Hrow Hnot)).
Defined.

(** The sample operations on a fresh database: the reports are stored
    under the ids 1, 2 and, after the clear, 3; the share under the id 1;
    the reports table ends with the one row of id 3. *)
Lemma sample_ops_ids :
  (fun real_text => ids_given real_text Reports sample_ops (init_db None))
  = (fun _ => [1; 2; 3])
  /\ (fun real_text => ids_given real_text Shares sample_ops (init_db None))
     = (fun _ => [1])
  /\ (fun real_text =>
        elements (keys_of Reports (run real_text sample_ops (init_db None))))
     = (fun _ => [3])
  /\ (fun real_text =>
        do res <- get_reports 50 (run real_text sample_ops (init_db None));
        ret (res.*1))
     = (fun _ => inr [3]).
Proof. repeat split; vm_compute; reflexivity. Qed.

(** ** Text properties *)

Module TextFacts.
Import Text TextSpec.

Lemma is_space_lower c : is_space (lower_char c) = is_space c.
Proof. destruct c as [[] [] [] [] [] [] [] []]; reflexivity. Qed.

Lemma lower_lstrip s : lower (lstrip s) = lstrip (lower s).
Proof.
  induction s as [|c s IH]; [reflexivity|]. simpl.
  rewrite is_space_lower. now destruct (is_space c).
Qed.

Lemma lower_rstrip s : lower (rstrip s) = rstrip (lower s).
Proof.
  induction s as [|c s IH]; [reflexivity|]. simpl.
  rewrite <- IH, is_space_lower.
  destruct (rstrip s); simpl; [now destruct (is_space c)|reflexivity].
Qed.

Lemma lower_strip s : lower (strip s) = strip (lower s).
Proof. unfold strip. now rewrite lower_rstrip, lower_lstrip. Qed.

Lemma eqb_space_false k c :
  is_space k = false -> is_space c = true -> Ascii.eqb k c = false.
Proof.
  intros Hk Hc. destruct (Ascii.eqb_spec k c) as [->|]; [congruence|reflexivity].
Qed.

Lemma contains_lstrip k kw s :
  is_space k = false ->
  contains (String k kw) (lstrip s) = contains (String k kw) s.
Proof.
  intros Hk. induction s as [|c s IH]; [reflexivity|].
  cbn [lstrip]. destruct (is_space c) eqn:Hc; [|reflexivity].
  rewrite IH. cbn [contains startswith].
  now rewrite (eqb_space_false k c Hk Hc).
Qed.

Lemma rstrip_cons c s :
  rstrip (String c s) = EmptyString /\ is_space c = true /\ rstrip s = EmptyString
  \/ rstrip (String c s) = String c (rstrip s).
Proof.
  cbn [rstrip]. destruct (rstrip s); [|now right].
  destruct (is_space c); [now left|now right].
Qed.

Lemma startswith_rstrip kw : forall s,
  no_space kw = true -> startswith kw (rstrip s) = startswith kw s.
Proof.
  induction kw as [|k kw IH]; intros s Hkw.
  - now destruct (rstrip s), s.
  - cbn in Hkw. apply andb_prop in Hkw as [Hk Hkw].
    apply negb_true_iff in Hk.
    destruct s as [|c s]; [reflexivity|].
    destruct (rstrip_cons c s) as [(-> & Hc & _) | ->]; cbn [startswith].
    + now rewrite (eqb_space_false k c Hk Hc).
    + now rewrite IH.
Qed.

Lemma contains_rstrip k kw s :
  no_space (String k kw) = true ->
  contains (String k kw) (rstrip s) = contains (String k kw) s.
Proof.
  intros Hkw. induction s as [|c s IH]; [reflexivity|].
  cbn [contains]. rewrite <- IH, <- (startswith_rstrip _ (String c s) Hkw).
  destruct (rstrip_cons c s) as [(-> & _ & ->) | ->]; reflexivity.
Qed.

(** Stripping the text does not change which whitespace-free keywords it
    contains. *)
Lemma contains_strip k kw s :
  no_space (String k kw) = true ->
  contains (String k kw) (strip s) = contains (String k kw) s.
Proof.
  intros Hkw. unfold strip. rewrite contains_rstrip by assumption.
  apply contains_lstrip. cbn in Hkw. apply andb_prop in Hkw as [Hk _].
  now apply negb_true_iff in Hk.
Qed.

Lemma startswith_spec p : forall s,
  startswith p s = true <-> exists post, s = p +:+ post.
Proof.
  induction p as [|a p IH]; intros s; cbn.
  - split; [intros _; now exists s|reflexivity].
  - destruct s as [|b s].
    + split; [discriminate|]. intros [post H]. discriminate.
    + rewrite andb_true_iff, IH. split.
      * intros [Hab [post ->]]. apply Ascii.eqb_eq in Hab as ->. now exists post.
      * intros [post [= -> ->]]. split; [apply Ascii.eqb_refl|now exists post].
Qed.

(** [contains] is the substring test of Python's [in]. *)
Lemma contains_spec needle : forall hay,
  contains needle hay = true <->
  exists pre post, hay = pre +:+ needle +:+ post.
Proof.
  induction hay as [|c hay IH]; cbn [contains]; rewrite orb_true_iff, startswith_spec.
  - split.
    + intros [[post H]|H]; [|discriminate]. now exists EmptyString, post.
    + intros (pre & post & H). left. destruct pre; [now exists post|discriminate].
  - rewrite IH. split.
    + intros [[post H]|(pre & post & H)].
      * now exists EmptyString, post.
      * exists (String c pre), post. cbn. now rewrite H.
    + intros (pre & post & H). destruct pre as [|a pre].
      * left. now exists post.
      * right. cbn in H. injection H as _ H. now exists pre, post.
Qed.

Lemma lstrip_blank s : blank s = true -> lstrip s = EmptyString.
Proof.
  induction s as [|c s IH]; [reflexivity|]. cbn.
  intros H. apply andb_prop in H as [-> Hs]. auto.
Qed.

Lemma strip_blank s : blank s = true -> strip s = EmptyString.
Proof. intros H. unfold strip. now rewrite lstrip_blank. Qed.

End TextFacts.

(** ** ChatIntentClassifier properties *)

Lemma chat_answer_classify text :
  chat_answer (Text.lower (Text.strip text)) = classify text.
Proof.
  unfold chat_answer, classify, chat_rules, first_match, rule_matches, existsb.
  rewrite TextFacts.lower_strip.
  rewrite !TextFacts.contains_strip by reflexivity.
  now rewrite !orb_false_r.
Qed.

Lemma truthy_insert k v (d : gmap string json) : truthy (JDict (<[k := v]> d)) = true.
Proof.
  simpl. destruct (map_to_list (<[k := v]> d)) eqn:E; [|reflexivity].
  apply map_to_list_empty_iff in E. now apply insert_non_empty in E.
Qed.

(** C5: the answer to a question is that of the first rule, in the fixed
    order, one of whose keywords occurs in it with letter case ignored, the
    fallback when none does; overlapping keywords go to the earlier rule. *)
Theorem chat_first_match_wins (text : string) (d : gmap string json)
    (now : datetime) (st : store) :
  api_chat (JDict (<["q" := JStr text]> d)) now st
  = (do st' <- save_chat (Text.strip text) (classify text) now st;
     ret (ChatAnswer (classify text), st'))
  /\ classify "help me find a safe route" = answer_safety
  /\ classify "is it safe to share my location" = answer_safety
  /\ classify "Please NAVIGATE and share" = answer_route
  /\ classify "HELP" = answer_sos
  /\ classify "hello" = answer_fallback.
Proof.
  split; [|repeat split; vm_compute; reflexivity].
  unfold api_chat, json_or_empty. rewrite truthy_insert.
  unfold dict_get. rewrite lookup_insert_eq. cbn [default from_option id bind ret].
  assert (E : py_strip (if truthy (JStr text) then JStr text else JStr "")
              = inr (Text.strip text)).
  { cbn [truthy]. destruct (String.eqb_spec text "") as [->|]; reflexivity. }
  rewrite E. cbn [bind]. now rewrite chat_answer_classify.
Qed.

(** C10: a question that is missing, empty or only whitespace is not
    rejected; the answer is the fallback and the exchange is saved with the
    empty string as its question. *)
Theorem blank_question_gets_fallback (body : json) (now : datetime) (st : store) :
  blank_question body = true ->
  api_chat body now st
  = (do st' <- save_chat "" answer_fallback now st;
     ret (ChatAnswer answer_fallback, st'))
  /\ (Z.max (seq (chats st)) (max_rowid (rows (chats st))) < max_rowid_value ->
      exists st',
        api_chat body now st = inr (ChatAnswer answer_fallback, st') /\
        rows (chats st') !! seq (chats st')
        = Some {| c_q := ""; c_a := answer_fallback;
                  c_created_at := isoformat now |} /\
        reports st' = reports st /\ shares st' = shares st).
Proof.
  intros Hb.
  assert (E : api_chat body now st
              = (do st' <- save_chat "" answer_fallback now st;
                 ret (ChatAnswer answer_fallback, st'))).
  { unfold blank_question in Hb. unfold api_chat.
    destruct (json_or_empty body) as [| | | | | |d]; try discriminate.
    unfold dict_get. cbn [bind ret].
    destruct (d !! "q") as [v|] eqn:Hq; cbn [default from_option id].
    - destruct v as [|b|n|x|s|l|d']; cbn [truthy] in *;
        try (apply negb_true_iff in Hb; rewrite Hb; reflexivity).
      + reflexivity.
      + destruct (negb (s =? "")%string); cbn [py_strip bind ret];
          [now rewrite (TextFacts.strip_blank s Hb)|reflexivity].
    - reflexivity. }
  split; [exact E|]. intros Hroom. rewrite E.
  unfold save_chat, insert_row.
  destruct (Z.leb_spec max_rowid_value
              (Z.max (seq (chats st)) (max_rowid (rows (chats st)))));
    [lia|].
  cbn. eexists. split; [reflexivity|]. cbn. now rewrite lookup_insert_eq.
Qed.

(** C10 at a question of three spaces, on a fresh database. *)
Lemma blank_question_witness :
  blank_question (JDict {[ "q" := JStr "   " ]}) = true /\
  api_chat (JDict {[ "q" := JStr "   " ]}) sample_clock (init_db None)
  = (do st' <- save_chat "" answer_fallback sample_clock (init_db None);
     ret (ChatAnswer answer_fallback, st')).
Proof.
  split; [reflexivity|].
  apply (blank_question_gets_fallback (JDict {[ "q" := JStr "   " ]})
           sample_clock (init_db None)).
  reflexivity.
Defined.

(** ** RouteGenerator properties *)

(** Whatever the mode, the prediction is the assessment at the fixed point
    [(lat + 0.0015, lng + 0.0008)]; for walking and for unrecognised modes
    that point is the route's second waypoint. *)
Lemma route_prediction_point lat0 lng0 mode now r :
  rr_prediction (route_reply_for lat0 lng0 mode now r)
  = mock_predict (lat0 + 0.0015) (lng0 + 0.0008) now r
  /\ ((mode =? "driving")%string = false -> (mode =? "safer")%string = false ->
      rr_route (route_reply_for lat0 lng0 mode now r) !! 1%nat
      = Some {| lat := lat0 + 0.0015; lng := lng0 + 0.0008 |}).
Proof.
  split; [reflexivity|]. intros H1 H2. unfold route_reply_for.
  now rewrite H1, H2.
Qed.

(** C3 at a driving request: the second waypoint of the returned route is
    [(lat + 0.006, lng + 0.004)], the prediction is the assessment at
    [(lat + 0.0015, lng + 0.0008)], and the two assessments differ in their
    alternate routes. *)
Theorem driving_prediction_off_route :
  let lat0 := 28.4595%float in
  let lng0 := 77.0266%float in
  let reply := route_reply_for lat0 lng0 "driving" sample_clock 0.5 in
  let expected := mock_predict (lat0 + 0.006) (lng0 + 0.004) sample_clock 0.5 in
  rr_route reply !! 1%nat = Some {| lat := lat0 + 0.006; lng := lng0 + 0.004 |}
  /\ rr_prediction reply
     = mock_predict (lat0 + 0.0015) (lng0 + 0.0008) sample_clock 0.5
  /\ (lat <$> a_alt_route (rr_prediction reply))
     = [28.462499999999999; 28.464099999999998]%float
  /\ (lat <$> a_alt_route expected)
     = [28.466999999999999; 28.468599999999999]%float
  /\ a_score (rr_prediction reply) = a_score expected
  /\ a_label (rr_prediction reply) = a_label expected.
Proof. vm_compute. repeat split; reflexivity. Qed.

(** ** Write endpoints: how the coordinates of a request are read *)

Section Coordinates.
Variable real_text : float -> string.
Variable float_of_str : string -> option float.
Variable str_of : json -> string.

Lemma coordinate_get d key dflt :
  bind (dict_get (JDict d) key (JFloat dflt)) (py_float float_of_str)
  = coordinate float_of_str dflt (d !! key).
Proof. unfold dict_get, coordinate. now destruct (d !! key). Qed.

(** C4 (as amended): each write endpoint takes the fallback 28.4595 for a
    missing [lat] and 77.0266 for a missing [lng] and goes on to save; a
    coordinate that is present goes through [float], so null, a list or a
    dict raise [TypeError] and text that is no number [ValueError], and
    the request ends there. *)
Theorem write_endpoints_default_missing_only (body : json) (now : datetime)
    (st : store) :
  api_report real_text float_of_str body now st
  = (do d <- request_fields body;
     do lat0 <- coordinate float_of_str fallback_lat (d !! "lat");
     do lng0 <- coordinate float_of_str fallback_lng (d !! "lng");
     do st' <- save_report real_text lat0 lng0 (default (JStr "Medium") (d !! "severity"))
                 (default (JStr "") (d !! "note")) now st;
     ret (NoContent, st'))
  /\ api_sos real_text float_of_str str_of body now st
     = (do d <- request_fields body;
        do lat0 <- coordinate float_of_str fallback_lat (d !! "lat");
        do lng0 <- coordinate float_of_str fallback_lng (d !! "lng");
        do st' <- save_report real_text lat0 lng0 (JStr "High")
                    (JStr ("SOS triggered: "
                           +:+ py_format str_of (default (JStr "unknown") (d !! "type"))))
                    now st;
        ret (NoContent, st'))
  /\ api_share float_of_str body now st
     = (do d <- request_fields body;
        do lat0 <- coordinate float_of_str fallback_lat (d !! "lat");
        do lng0 <- coordinate float_of_str fallback_lng (d !! "lng");
        do st' <- save_share lat0 lng0 now st;
        ret (NoContent, st'))
  /\ (forall dflt, coordinate float_of_str dflt None = inr dflt)
  /\ (forall dflt x, coordinate float_of_str dflt (Some (JFloat x)) = inr x)
  /\ (forall dflt, coordinate float_of_str dflt (Some JNull) = inl TypeError)
  /\ (forall dflt l, coordinate float_of_str dflt (Some (JList l)) = inl TypeError)
  /\ (forall dflt d, coordinate float_of_str dflt (Some (JDict d)) = inl TypeError)
  /\ (forall dflt s, float_of_str s = None ->
        coordinate float_of_str dflt (Some (JStr s)) = inl ValueError).
Proof.
  assert (Hreq : forall k : gmap string json -> result (reply * store),
            match json_or_empty body with
            | JDict d => k d
            | _ => inl AttributeError
            end = (do d <- request_fields body; k d)).
  { intros k. unfold request_fields. now destruct (json_or_empty body). }
  split; [|split; [|split]].
  - unfold api_report. rewrite <- Hreq.
    destruct (json_or_empty body) as [| | | | | |d]; try reflexivity.
    rewrite <- !coordinate_get. unfold dict_get. cbn [bind ret].
    destruct (py_float float_of_str (default (JFloat fallback_lat) (d !! "lat")));
      [reflexivity|]. cbn [bind].
    now destruct (py_float float_of_str (default (JFloat fallback_lng) (d !! "lng"))).
  - unfold api_sos. rewrite <- Hreq.
    destruct (json_or_empty body) as [| | | | | |d]; try reflexivity.
    rewrite <- !coordinate_get. unfold dict_get. cbn [bind ret].
    destruct (py_float float_of_str (default (JFloat fallback_lat) (d !! "lat")));
      [reflexivity|]. cbn [bind].
    now destruct (py_float float_of_str (default (JFloat fallback_lng) (d !! "lng"))).
  - unfold api_share. rewrite <- Hreq.
    destruct (json_or_empty body) as [| | | | | |d]; try reflexivity.
    rewrite <- !coordinate_get. unfold dict_get. cbn [bind ret].
    destruct (py_float float_of_str (default (JFloat fallback_lat) (d !! "lat")));
      [reflexivity|]. cbn [bind].
    now destruct (py_float float_of_str (default (JFloat fallback_lng) (d !! "lng"))).
  - repeat split; try reflexivity.
    intros dflt s Hs. cbn. now rewrite Hs.
Qed.

End Coordinates.

(** C4 fails as stated: a report, an SOS and a share whose [lat] is null
    are not saved at the fallback coordinate; each ends in [TypeError],
    whatever the runtime's reading of text and rendering of values. *)
Lemma null_latitude_rejected :
  let body := JDict {[ "lat" := JNull; "lng" := JFloat 77.03 ]} in
  (fun real_text float_of_str =>
     api_report real_text float_of_str body sample_clock (init_db None))
  = (fun _ _ => inl TypeError)
  /\ (fun real_text float_of_str str_of =>
        api_sos real_text float_of_str str_of body sample_clock (init_db None))
     = (fun _ _ _ => inl TypeError)
  /\ (fun float_of_str => api_share float_of_str body sample_clock (init_db None))
     = (fun _ => inl TypeError).
Proof. repeat split; vm_compute; reflexivity. Qed.
